(** * music/SystemHeaders.h: the header aggregator, under a small C preprocessor

    The repository's only source file is a guarded header that pulls in six
    system headers.  Its meaning is what the C preprocessor does with it, so
    the development has three layers:

    - the text of the file, line by line, exactly as it is on disk;
    - a lexer that removes comments and classifies every line (blank,
      comment, directive, program text);
    - an interpreter for the directives over a preprocessing state (macro
      table, trace of system headers pulled in, program text handed to the
      compiler), relative to a platform that says which system headers
      exist.

    The properties of the file are then proved about [include_file], the
    interpreter run on the file's own lines. *)

From Stdlib Require Import Ascii.
From stdpp Require Import gmap strings list.

Open Scope string_scope.
Open Scope list_scope.

(** ** The file *)

Module Source.

(** src/music/SystemHeaders.h, one string per line (lines 1 to 12).  The
    last line ends with a blank and has no newline after it. *)
Definition text : list string :=
  [ "#ifndef SystemHeaders_h"
  ; "#define SystemHeaders_h"
  ; ""
  ; "// 导入系统套接字API"
  ; "#include <sys/socket.h>"
  ; "#include <netinet/in.h>"
  ; "#include <arpa/inet.h>"
  ; "#include <unistd.h>"
  ; "#include <netdb.h>"
  ; "#include <ifaddrs.h>"
  ; ""
  ; "#endif /* SystemHeaders_h */ " ].

(** The macro of the re-inclusion guard (lines 1, 2 and 12). *)
Definition guard : string := "SystemHeaders_h".

End Source.

(** ** Lexing: comments, blanks, directives *)

Module Lex.

Definition is_space (c : ascii) : bool :=
  (Ascii.eqb c " " || Ascii.eqb c "009")%bool.

Definition is_ident_char (c : ascii) : bool :=
  let n := nat_of_ascii c in
  (Nat.leb 65 n && Nat.leb n 90 || Nat.leb 97 n && Nat.leb n 122
   || Nat.leb 48 n && Nat.leb n 57 || Nat.eqb n 95)%bool.

Fixpoint skip_space (s : string) : string :=
  match s with
  | String c s' => if is_space c then skip_space s' else s
  | EmptyString => EmptyString
  end.

Definition is_blank (s : string) : bool := String.eqb (skip_space s) "".

Fixpoint trim_right (s : string) : string :=
  match s with
  | EmptyString => EmptyString
  | String c s' =>
      let t := trim_right s' in
      if (is_space c && String.eqb t "")%bool then EmptyString else String c t
  end.

Definition trim (s : string) : string := trim_right (skip_space s).

(** Longest identifier at the front of [s], and what follows it. *)
Fixpoint take_ident (s : string) : string * string :=
  match s with
  | String c s' =>
      if is_ident_char c
      then let '(i, r) := take_ident s' in (String c i, r)
      else (EmptyString, s)
  | EmptyString => (EmptyString, EmptyString)
  end.

(** The text up to the closing delimiter [d]; [None] when [d] is missing. *)
Fixpoint take_until (d : ascii) (s : string) : option string :=
  match s with
  | String c s' =>
      if Ascii.eqb c d then Some EmptyString
      else match take_until d s' with
           | Some h => Some (String c h)
           | None => None
           end
  | EmptyString => None
  end.

(** Comment removal on one line.  [in_block] says that the line starts inside
    a block comment; the result carries the same flag for the next line.  A
    block comment becomes one blank, a line comment ends the line. *)
Fixpoint uncomment (in_block : bool) (s : string) : string * bool :=
  match s with
  | EmptyString => (EmptyString, in_block)
  | String c s' =>
      if in_block then
        match s' with
        | String c' s'' =>
            if (Ascii.eqb c "*" && Ascii.eqb c' "/")%bool
            then let '(t, b) := uncomment false s'' in (String " " t, b)
            else uncomment true s'
        | EmptyString => (EmptyString, true)
        end
      else
        match s' with
        | String c' s'' =>
            if (Ascii.eqb c "/" && Ascii.eqb c' "/")%bool then (EmptyString, false)
            else if (Ascii.eqb c "/" && Ascii.eqb c' "*")%bool then uncomment true s''
            else let '(t, b) := uncomment false s' in (String c t, b)
        | EmptyString => (String c EmptyString, false)
        end
  end.

Inductive directive : Type :=
  | Ifndef (m : string)
  | Ifdef (m : string)
  | Else
  | Endif
  | Define (m : string) (body : string)
  | Undef (m : string)
  | IncludeSys (h : string)
  | IncludeLocal (h : string)
  | Other (keyword : string).

Inductive line : Type :=
  | Blank
  | Comment
  | Directive (d : directive)
  | Code (t : string).

(** The operand of an include directive: a name between angle brackets is a
    system header, one between double quotes a file of the project. *)
Definition parse_include (arg : string) : directive :=
  match arg with
  | String c r =>
      if Ascii.eqb c "<" then
        match take_until ">" r with
        | Some h => IncludeSys h
        | None => Other "include"
        end
      else if Ascii.eqb c "034" then
        match take_until "034" r with
        | Some h => IncludeLocal h
        | None => Other "include"
        end
      else Other "include"
  | EmptyString => Other "include"
  end.

(** A directive line without its sharp sign and without comments. *)
Definition parse_directive (s : string) : directive :=
  let '(kw, rest) := take_ident (skip_space s) in
  let arg := trim rest in
  if String.eqb kw "ifndef" then Ifndef (fst (take_ident arg))
  else if String.eqb kw "ifdef" then Ifdef (fst (take_ident arg))
  else if String.eqb kw "else" then Else
  else if String.eqb kw "endif" then Endif
  else if String.eqb kw "define" then
    let '(m, body) := take_ident arg in
    match body with
    | String "(" _ => Other "define"
    | _ => Define m (trim body)
    end
  else if String.eqb kw "undef" then Undef (fst (take_ident arg))
  else if String.eqb kw "include" then parse_include arg
  else Other kw.

(** One line: [raw] as in the file, [bare] after comment removal. *)
Definition classify (raw bare : string) : line :=
  if is_blank raw then Blank
  else match skip_space bare with
       | EmptyString => Comment
       | String c r =>
           if Ascii.eqb c "#" then Directive (parse_directive r)
           else Code (trim bare)
       end.

Fixpoint lex_from (in_block : bool) (ls : list string) : list line :=
  match ls with
  | [] => []
  | raw :: ls' =>
      let '(bare, b) := uncomment in_block raw in
      classify raw bare :: lex_from b ls'
  end.

Definition lex (ls : list string) : list line := lex_from false ls.

End Lex.

Export Lex.

(** The file as the preprocessor sees it. *)
Definition SystemHeaders_h : list line := lex Source.text.

(** ** The preprocessor *)

Module Cpp.

(** The target platform: which system headers it provides. *)
Definition platform : Type := string -> bool.

Inductive pp_error : Type :=
  | MissingHeader (h : string) (ln : nat)
  | MacroRedefined (m : string) (ln : nat)
  | StrayElse (ln : nat)
  | StrayEndif (ln : nat)
  | UnterminatedConditional
  | Unsupported (ln : nat).

Inductive result (A : Type) : Type :=
  | Ok (a : A)
  | Err (e : pp_error).

Arguments Ok {A} a.
Arguments Err {A} e.

Definition bind {A B : Type} (r : result A) (k : A -> result B) : result B :=
  match r with
  | Ok a => k a
  | Err e => Err e
  end.

(** What preprocessing has built so far in a translation unit:
    - [macros]: the macro table, name to replacement text;
    - [headers]: the system headers pulled in, in the order of their
      include directives;
    - [program]: the lines of program text handed on to the compiler. *)
Record pp_state : Type := PPState
  { macros : gmap string string
  ; headers : list string
  ; program : list string }.

(** A translation unit before its first line. *)
Definition empty_unit : pp_state :=
  {| macros := ∅; headers := []; program := [] |}.

Definition is_defined (m : string) (st : pp_state) : bool :=
  match macros st !! m with
  | Some _ => true
  | None => false
  end.

Definition define_macro (m body : string) (st : pp_state) : pp_state :=
  {| macros := <[m := body]> (macros st)
   ; headers := headers st
   ; program := program st |}.

Definition undef_macro (m : string) (st : pp_state) : pp_state :=
  {| macros := delete m (macros st)
   ; headers := headers st
   ; program := program st |}.

(** A system header is taken as the platform gives it: the unit records
    that it has been pulled in, and the header leaves the macros of the
    project alone. *)
Definition pull_header (h : string) (st : pp_state) : pp_state :=
  {| macros := macros st
   ; headers := headers st ++ [h]
   ; program := program st |}.

Definition emit (t : string) (st : pp_state) : pp_state :=
  {| macros := macros st
   ; headers := headers st
   ; program := program st ++ [t] |}.

(** The conditionals open in the current file, innermost first; a line is
    live when every one of them selects it. *)
Definition live (cs : list bool) : bool := forallb id cs.

Definition directive_step (P : platform) (ln : nat) (d : directive)
    (cs : list bool) (st : pp_state) : result (list bool * pp_state) :=
  match d with
  | Ifndef m => Ok (negb (is_defined m st) :: cs, st)
  | Ifdef m => Ok (is_defined m st :: cs, st)
  | Else =>
      match cs with
      | c :: cs' => Ok (negb c :: cs', st)
      | [] => Err (StrayElse ln)
      end
  | Endif =>
      match cs with
      | _ :: cs' => Ok (cs', st)
      | [] => Err (StrayEndif ln)
      end
  | Define m body =>
      if live cs then
        match macros st !! m with
        | Some old =>
            if String.eqb old body then Ok (cs, st)
            else Err (MacroRedefined m ln)
        | None => Ok (cs, define_macro m body st)
        end
      else Ok (cs, st)
  | Undef m =>
      if live cs then Ok (cs, undef_macro m st) else Ok (cs, st)
  | IncludeSys h =>
      if live cs then
        if P h then Ok (cs, pull_header h st)
        else Err (MissingHeader h ln)
      else Ok (cs, st)
  | IncludeLocal _ | Other _ =>
      if live cs then Err (Unsupported ln) else Ok (cs, st)
  end.

Definition line_step (P : platform) (ln : nat) (l : line)
    (cs : list bool) (st : pp_state) : result (list bool * pp_state) :=
  match l with
  | Blank | Comment => Ok (cs, st)
  | Directive d => directive_step P ln d cs st
  | Code t => Ok (cs, if live cs then emit t st else st)
  end.

(** The lines [ls] of one file, the first of them numbered [ln].  A
    conditional still open at the end of the file is an error. *)
Fixpoint run (P : platform) (ln : nat) (ls : list line)
    (cs : list bool) (st : pp_state) : result pp_state :=
  match ls with
  | [] =>
      match cs with
      | [] => Ok st
      | _ :: _ => Err UnterminatedConditional
      end
  | l :: ls' =>
      match line_step P ln l cs st with
      | Ok (cs', st') => run P (S ln) ls' cs' st'
      | Err e => Err e
      end
  end.

End Cpp.

Export Cpp.

(** ** Including the aggregator *)

(** One inclusion of SystemHeaders.h in a translation unit that has reached
    the state [st]. *)
Definition include_file (P : platform) (st : pp_state) : result pp_state :=
  run P 1 SystemHeaders_h [] st.

(** [n] inclusions in a row. *)
Fixpoint include_times (P : platform) (n : nat) (st : pp_state)
    : result pp_state :=
  match n with
  | O => Ok st
  | S n' => bind (include_file P st) (include_times P n')
  end.

(** ** What the file says, read off its lines *)

Definition include_target (l : line) : option string :=
  match l with
  | Directive (IncludeSys h) | Directive (IncludeLocal h) => Some h
  | _ => None
  end.

(** The operands of the include directives, in textual order. *)
Definition include_targets (ls : list line) : list string :=
  omap include_target ls.

(** The include directives of system headers with their line numbers. *)
Fixpoint include_sites (ln : nat) (ls : list line) : list (nat * string) :=
  match ls with
  | [] => []
  | Directive (IncludeSys h) :: ls' => (ln, h) :: include_sites (S ln) ls'
  | _ :: ls' => include_sites (S ln) ls'
  end.

Definition defined_macro (l : line) : option (string * string) :=
  match l with
  | Directive (Define m body) => Some (m, body)
  | _ => None
  end.

(** The macros the file defines, each with its replacement text. *)
Definition defined_macros (ls : list line) : list (string * string) :=
  omap defined_macro ls.

Definition undefined_macro (l : line) : option string :=
  match l with
  | Directive (Undef m) => Some m
  | _ => None
  end.

Definition undefined_macros (ls : list line) : list string :=
  omap undefined_macro ls.

Definition program_line (l : line) : option string :=
  match l with
  | Code t => Some t
  | _ => None
  end.

(** The lines that are neither blank, comment nor directive: declarations,
    definitions and statements of the file's own. *)
Definition program_text (ls : list line) : list string :=
  omap program_line ls.

Definition is_directive (l : line) : bool :=
  match l with
  | Directive _ => true
  | _ => false
  end.

(** Nesting depth of conditionals after [ls], from depth [d]; [None] when an
    endif has nothing to close. *)
Fixpoint depth_after (d : nat) (ls : list line) : option nat :=
  match ls with
  | [] => Some d
  | Directive (Ifndef _) :: ls' | Directive (Ifdef _) :: ls' =>
      depth_after (S d) ls'
  | Directive Endif :: ls' =>
      match d with
      | S d' => depth_after d' ls'
      | O => None
      end
  | _ :: ls' => depth_after d ls'
  end.

(** Every conditional opened in [ls] is closed in [ls]. *)
Definition balanced (ls : list line) : bool :=
  match depth_after 0 ls with
  | Some O => true
  | _ => false
  end.

(** The first include site whose header the platform lacks. *)
Definition first_missing (P : platform) (sites : list (nat * string))
    : option (nat * string) :=
  List.find (fun s => negb (P (snd s))) sites.

(** ** The external interface of the specification *)

(** The six surfaces of the specification's interface table. *)
Inductive surface : Type :=
  | SocketAPI
  | InternetAddress
  | AddressConversion
  | PosixIO
  | NameResolution
  | InterfaceEnumeration.

Definition surfaces : list surface :=
  [ SocketAPI; InternetAddress; AddressConversion; PosixIO; NameResolution
  ; InterfaceEnumeration ].

(** The platform header behind each surface. *)
Definition header_of (s : surface) : string :=
  match s with
  | SocketAPI => "sys/socket.h"
  | InternetAddress => "netinet/in.h"
  | AddressConversion => "arpa/inet.h"
  | PosixIO => "unistd.h"
  | NameResolution => "netdb.h"
  | InterfaceEnumeration => "ifaddrs.h"
  end.

(** A platform of the POSIX-compatible family, as far as this file is
    concerned: it provides the header of every surface. *)
Definition posix_family (P : platform) : bool :=
  forallb (fun s => P (header_of s)) surfaces.

(** The state a live first inclusion leads to: the guard is defined to
    nothing and the six headers follow those already pulled in. *)
Definition aggregated (st : pp_state) : pp_state :=
  {| macros := <[Source.guard := ""]> (macros st)
   ; headers := headers st ++ map header_of surfaces
   ; program := program st |}.

(** ** Shapes of lines, for the lemmas on [run] *)

(** A line that opens, switches or closes no conditional. *)
Definition flat (l : line) : bool :=
  match l with
  | Directive (Ifndef _) | Directive (Ifdef _) | Directive Else
  | Directive Endif => false
  | _ => true
  end.

(** A line that is blank, a comment or the inclusion of a system header. *)
Definition plain (l : line) : bool :=
  match l with
  | Blank | Comment | Directive (IncludeSys _) => true
  | _ => false
  end.

Definition pull_headers (hs : list string) (st : pp_state) : pp_state :=
  {| macros := macros st
   ; headers := headers st ++ hs
   ; program := program st |}.

(** Lines 3 to 11: what stands between the guard's define and its endif. *)
Definition guarded_includes : list line := take 9 (drop 2 SystemHeaders_h).

(** ** Notions used in the statements *)

Definition count_includes (ls : list line) : nat :=
  length (include_targets ls).

(** The header [h] has been pulled into the unit. *)
Definition pulled (h : string) (st : pp_state) : bool :=
  existsb (String.eqb h) (headers st).

(** A platform with every header, and one without the resolver header. *)
Definition full_platform : platform := fun _ => true.

Definition no_netdb : platform := fun h => negb (String.eqb h "netdb.h").

(** A platform with none of the headers. *)
Definition bare_platform : platform := fun _ => false.


(** ** Facts about the lexed file *)

Lemma SystemHeaders_h_lines :
  SystemHeaders_h =
  [ Directive (Ifndef "SystemHeaders_h")
  ; Directive (Define "SystemHeaders_h" "")
  ; Blank
  ; Comment
  ; Directive (IncludeSys "sys/socket.h")
  ; Directive (IncludeSys "netinet/in.h")
  ; Directive (IncludeSys "arpa/inet.h")
  ; Directive (IncludeSys "unistd.h")
  ; Directive (IncludeSys "netdb.h")
  ; Directive (IncludeSys "ifaddrs.h")
  ; Blank
  ; Directive Endif ].
Proof. vm_compute. reflexivity. Qed.

Lemma include_sites_file :
  include_sites 1 SystemHeaders_h =
  [ (5, "sys/socket.h"); (6, "netinet/in.h"); (7, "arpa/inet.h")
  ; (8, "unistd.h"); (9, "netdb.h"); (10, "ifaddrs.h") ].
Proof. vm_compute. reflexivity. Qed.


Lemma SystemHeaders_h_shape :
  SystemHeaders_h =
  Directive (Ifndef Source.guard) :: Directive (Define Source.guard "")
    :: guarded_includes ++ [Directive Endif].
Proof. vm_compute. reflexivity. Qed.

Lemma guarded_includes_plain : forallb plain guarded_includes = true.
Proof. vm_compute. reflexivity. Qed.

Lemma guarded_includes_sites :
  include_sites 3 guarded_includes = include_sites 1 SystemHeaders_h.
Proof. vm_compute. reflexivity. Qed.

Lemma guarded_includes_targets :
  include_targets guarded_includes = map header_of surfaces.
Proof. vm_compute. reflexivity. Qed.

(** ** The lexer and the interpreter on small inputs *)

Example lex_mixed_lines :
  lex [ "  #  define N 3 // three"
      ; "int f(void);"
      ; "/* a comment that"
      ; "   ends here */ #undef N"
      ; "#include <stdio.h> /* io */"
      ; "#if N > 2" ] =
  [ Directive (Define "N" "3"); Code "int f(void);"; Comment
  ; Directive (Undef "N"); Directive (IncludeSys "stdio.h")
  ; Directive (Other "if") ].
Proof. vm_compute. reflexivity. Qed.

Example include_in_empty_unit :
  include_file full_platform empty_unit =
  Ok {| macros := {[ "SystemHeaders_h" := "" ]}
      ; headers := [ "sys/socket.h"; "netinet/in.h"; "arpa/inet.h"
                   ; "unistd.h"; "netdb.h"; "ifaddrs.h" ]
      ; program := [] |}.
Proof. vm_compute. reflexivity. Qed.

Example include_without_netdb :
  include_file no_netdb empty_unit = Err (MissingHeader "netdb.h" 9).
Proof. vm_compute. reflexivity. Qed.

Example include_with_guard_taken :
  include_file no_netdb (define_macro "SystemHeaders_h" "1" empty_unit) =
  Ok (define_macro "SystemHeaders_h" "1" empty_unit).
Proof. vm_compute. reflexivity. Qed.

(** The interpreter does tell a guarded header from an unguarded one: the
    same include without a guard is pulled in twice, a macro defined anew
    with another text is an error, and so is a conditional left open. *)
Example unguarded_twice :
  bind (run full_platform 1 (lex ["#include <unistd.h>"]) [] empty_unit)
       (run full_platform 1 (lex ["#include <unistd.h>"]) []) =
  Ok (pull_headers ["unistd.h"; "unistd.h"] empty_unit).
Proof. vm_compute. reflexivity. Qed.

Example redefinition_is_an_error :
  run full_platform 1 (lex ["#define N 4"]) []
      (define_macro "N" "3" empty_unit) =
  Err (MacroRedefined "N" 1).
Proof. vm_compute. reflexivity. Qed.

Example open_conditional_is_an_error :
  run full_platform 1 (lex ["#ifndef G"; "#define G"]) [] empty_unit =
  Err UnterminatedConditional.
Proof. vm_compute. reflexivity. Qed.

Example program_text_is_passed_on :
  run full_platform 1 (lex ["#ifndef G"; "int x = 1;"; "#endif"]) []
      empty_unit =
  Ok (emit "int x = 1;" empty_unit).
Proof. vm_compute. reflexivity. Qed.

(** ** Lemmas on [run] *)

Lemma run_cons P ln l ls cs st :
  run P ln (l :: ls) cs st =
  match line_step P ln l cs st with
  | Ok (cs', st') => run P (S ln) ls cs' st'
  | Err e => Err e
  end.
Proof. reflexivity. Qed.

Lemma plain_flat l : plain l = true -> flat l = true.
Proof. destruct l as [| |[]|]; simpl; congruence. Qed.

Lemma forallb_plain_flat ls :
  forallb plain ls = true -> forallb flat ls = true.
Proof.
  induction ls as [|l ls IH]; simpl; [reflexivity|].
  intros [Hl Hls]%andb_prop. rewrite (plain_flat l Hl). simpl. auto.
Qed.

Lemma dead_flat_step P ln l cs st :
  live cs = false -> flat l = true -> line_step P ln l cs st = Ok (cs, st).
Proof.
  intros Hdead Hflat.
  destruct l as [| |d|t]; simpl; try reflexivity.
  - destruct d; simpl in *; try discriminate; rewrite Hdead; reflexivity.
  - rewrite Hdead. reflexivity.
Qed.

(** Lines without conditionals are skipped as a block in a dead region. *)
Lemma run_dead_flat P ls : forall ln rest cs st,
  live cs = false -> forallb flat ls = true ->
  run P ln (ls ++ rest) cs st = run P (length ls + ln) rest cs st.
Proof.
  induction ls as [|l ls IH]; intros ln rest cs st Hdead Hflat.
  - reflexivity.
  - simpl in Hflat. apply andb_prop in Hflat as [Hl Hls].
    change ((l :: ls) ++ rest) with (l :: (ls ++ rest)).
    rewrite run_cons, (dead_flat_step P ln l cs st Hdead Hl).
    rewrite (IH (S ln) rest cs st Hdead Hls).
    f_equal. simpl. lia.
Qed.

Lemma pull_headers_nil st : pull_headers [] st = st.
Proof.
  destruct st as [m h p]. unfold pull_headers. simpl.
  rewrite app_nil_r. reflexivity.
Qed.

Lemma pull_headers_cons h hs st :
  pull_headers hs (pull_header h st) = pull_headers (h :: hs) st.
Proof.
  unfold pull_headers, pull_header. simpl.
  rewrite <- app_assoc. reflexivity.
Qed.

(** A live block of plain lines pulls its headers in, one after the other,
    and stops at the first one the platform lacks. *)
Lemma run_live_plain P ls : forall ln rest cs st,
  live cs = true -> forallb plain ls = true ->
  run P ln (ls ++ rest) cs st =
  match first_missing P (include_sites ln ls) with
  | Some (k, h) => Err (MissingHeader h k)
  | None =>
      run P (length ls + ln) rest cs (pull_headers (include_targets ls) st)
  end.
Proof.
  induction ls as [|l ls IH]; intros ln rest cs st Hlive Hplain.
  - simpl. rewrite pull_headers_nil. reflexivity.
  - simpl in Hplain. apply andb_prop in Hplain as [Hl Hls].
    change ((l :: ls) ++ rest) with (l :: (ls ++ rest)).
    rewrite run_cons.
    assert (Hlen : length (l :: ls) + ln = length ls + S ln) by (simpl; lia).
    rewrite Hlen.
    destruct l as [| |d|t]; try discriminate.
    + simpl. apply IH; assumption.
    + simpl. apply IH; assumption.
    + destruct d; try discriminate.
      cbn [line_step directive_step include_sites]. rewrite Hlive.
      unfold first_missing. cbn [List.find snd].
      destruct (P h) eqn:HP; cbn [negb].
      * rewrite (IH (S ln) rest cs _ Hlive Hls).
        unfold first_missing. unfold include_targets at 2. cbn [omap include_target].
        rewrite pull_headers_cons. reflexivity.
      * reflexivity.
Qed.

Lemma is_defined_lookup m st : is_defined m st = false -> macros st !! m = None.
Proof. unfold is_defined. destruct (macros st !! m); congruence. Qed.

(** ** The two ways an inclusion can go *)

(** The guard is taken: the whole file is skipped. *)
Lemma include_file_guarded P st :
  is_defined Source.guard st = true -> include_file P st = Ok st.
Proof.
  intros Hdef. unfold include_file.
  rewrite SystemHeaders_h_shape, run_cons.
  cbn [line_step directive_step]. rewrite Hdef. cbn [negb].
  change (Directive (Define Source.guard "") :: guarded_includes ++ [Directive Endif])
    with ((Directive (Define Source.guard "") :: guarded_includes) ++ [Directive Endif]).
  rewrite run_dead_flat.
  - reflexivity.
  - reflexivity.
  - cbn [forallb flat andb]. apply forallb_plain_flat, guarded_includes_plain.
Qed.

(** The guard is free: it is defined, and the headers are pulled in up to
    the first missing one. *)
Lemma include_file_fresh P st :
  is_defined Source.guard st = false ->
  include_file P st =
  match first_missing P (include_sites 1 SystemHeaders_h) with
  | Some (k, h) => Err (MissingHeader h k)
  | None => Ok (aggregated st)
  end.
Proof.
  intros Hdef. unfold include_file.
  rewrite SystemHeaders_h_shape at 1. rewrite run_cons.
  cbn [line_step directive_step]. rewrite Hdef. cbn [negb].
  rewrite run_cons. cbn [line_step directive_step live forallb id andb].
  rewrite (is_defined_lookup _ _ Hdef).
  rewrite (run_live_plain P guarded_includes 3 _ [true]
             (define_macro Source.guard "" st) eq_refl guarded_includes_plain).
  rewrite guarded_includes_sites.
  destruct (first_missing P (include_sites 1 SystemHeaders_h)) as [[k h]|].
  - reflexivity.
  - rewrite guarded_includes_targets. reflexivity.
Qed.

Lemma aggregated_defined st : is_defined Source.guard (aggregated st) = true.
Proof.
  unfold is_defined, aggregated. simpl. rewrite lookup_insert_eq. reflexivity.
Qed.

Lemma first_missing_family P :
  first_missing P (include_sites 1 SystemHeaders_h) = None <->
  posix_family P = true.
Proof.
  rewrite include_sites_file. unfold first_missing, posix_family. simpl.
  destruct (P "sys/socket.h"), (P "netinet/in.h"), (P "arpa/inet.h"),
    (P "unistd.h"), (P "netdb.h"), (P "ifaddrs.h"); simpl; split; congruence.
Qed.

(** The first missing site splits the sites: every header before it is
    there, its own is not. *)
Lemma first_missing_split P sites : forall k h,
  first_missing P sites = Some (k, h) ->
  exists before after,
    sites = before ++ (k, h) :: after /\
    P h = false /\
    Forall (fun s => P (snd s) = true) before.
Proof.
  unfold first_missing.
  induction sites as [|[k' h'] sites IH]; intros k h Hfind; simpl in Hfind.
  - discriminate.
  - destruct (P h') eqn:HP; simpl in Hfind.
    + destruct (IH k h Hfind) as (before & after & -> & Hh & Hall).
      exists ((k', h') :: before), after. repeat split; auto.
    + injection Hfind as <- <-.
      exists [], sites. repeat split; auto.
Qed.

(** An inclusion either skips the file, or defines the guard and pulls the
    six headers, or stops at a missing header. *)
Lemma include_file_Ok P st st' :
  include_file P st = Ok st' ->
  (is_defined Source.guard st = true /\ st' = st) \/
  (is_defined Source.guard st = false /\ posix_family P = true /\
   st' = aggregated st).
Proof.
  intros Hrun. destruct (is_defined Source.guard st) eqn:Hdef.
  - rewrite (include_file_guarded P st Hdef) in Hrun.
    injection Hrun as <-. left. auto.
  - rewrite (include_file_fresh P st Hdef) in Hrun.
    destruct (first_missing P _) as [[k h]|] eqn:Hmiss; [discriminate|].
    injection Hrun as <-. right. repeat split.
    apply first_missing_family, Hmiss.
Qed.

Lemma include_file_Err P st e :
  include_file P st = Err e ->
  is_defined Source.guard st = false /\
  exists k h,
    e = MissingHeader h k /\
    first_missing P (include_sites 1 SystemHeaders_h) = Some (k, h).
Proof.
  intros Hrun. destruct (is_defined Source.guard st) eqn:Hdef.
  - rewrite (include_file_guarded P st Hdef) in Hrun. discriminate.
  - rewrite (include_file_fresh P st Hdef) in Hrun. split; [reflexivity|].
    destruct (first_missing P _) as [[k h]|] eqn:Hmiss; [|discriminate].
    injection Hrun as <-. eauto.
Qed.

Lemma include_file_defines P st st' :
  include_file P st = Ok st' -> is_defined Source.guard st' = true.
Proof.
  intros [[Hdef ->]|(_ & _ & ->)]%include_file_Ok.
  - exact Hdef.
  - apply aggregated_defined.
Qed.

(** After a successful inclusion, one more changes nothing. *)
Lemma include_file_again P st st' :
  include_file P st = Ok st' -> include_file P st' = Ok st'.
Proof.
  intros Hrun. apply include_file_guarded, (include_file_defines P st), Hrun.
Qed.

(** An inclusion from a unit with a free guard on a platform of the family. *)
Lemma include_file_family P st :
  posix_family P = true -> is_defined Source.guard st = false ->
  include_file P st = Ok (aggregated st).
Proof.
  intros HP Hdef. rewrite (include_file_fresh P st Hdef).
  apply first_missing_family in HP. rewrite HP. reflexivity.
Qed.

Lemma pulled_aggregated s st : pulled (header_of s) (aggregated st) = true.
Proof.
  unfold pulled, aggregated. simpl. rewrite existsb_app.
  apply orb_true_iff. right. destruct s; reflexivity.
Qed.

Lemma provides_six_family P :
  (forall s, P (header_of s) = true) -> posix_family P = true.
Proof.
  intros HP. unfold posix_family. apply forallb_forall. intros s _. apply HP.
Qed.

(** ** C1: the headers the file depends on *)

(** C1.  The include directives of the file name exactly the headers of the
    six surfaces of the interface table: sys/socket.h, netinet/in.h,
    arpa/inet.h, unistd.h, netdb.h and ifaddrs.h, each as a system header.
    A header is named by the file if and only if it is one of them.
    Including the file makes them available: on a platform that provides
    the six, an inclusion from a unit with a free guard succeeds and the
    unit gains exactly these six headers, each of them pulled in.  Every
    inclusion that goes through the guard adds exactly these six, and the
    outcome of an inclusion depends on the platform through these six
    headers only. *)
Theorem aggregator_six_headers :
  include_targets SystemHeaders_h = map header_of surfaces /\
  map snd (include_sites 1 SystemHeaders_h) = include_targets SystemHeaders_h /\
  (forall h, h ∈ include_targets SystemHeaders_h <-> exists s, h = header_of s) /\
  (forall P st,
     (forall s, P (header_of s) = true) ->
     is_defined Source.guard st = false ->
     exists st',
       include_file P st = Ok st' /\
       headers st' = headers st ++ map header_of surfaces /\
       (forall s, pulled (header_of s) st' = true)) /\
  (forall P st st',
     is_defined Source.guard st = false -> include_file P st = Ok st' ->
     headers st' = headers st ++ map header_of surfaces) /\
  (forall P Q st,
     (forall s, P (header_of s) = Q (header_of s)) ->
     include_file P st = include_file Q st).
Proof.
  split; [vm_compute; reflexivity|].
  split; [vm_compute; reflexivity|].
  split; [|split; [|split]].
  - intros h.
    replace (include_targets SystemHeaders_h) with (map header_of surfaces)
      by (vm_compute; reflexivity).
    rewrite list_elem_of_fmap. split.
    + intros (s & -> & _). eauto.
    + intros (s & ->). exists s. split; [reflexivity|].
      destruct s; unfold surfaces; set_solver.
  - intros P st HP Hdef. exists (aggregated st).
    split; [|split].
    + apply include_file_family; [|exact Hdef].
      apply provides_six_family, HP.
    + reflexivity.
    + intros s. apply pulled_aggregated.
  - intros P st st' Hdef Hrun.
    apply include_file_Ok in Hrun as [[Hdef' _]|(_ & _ & ->)].
    + congruence.
    + reflexivity.
  - intros P Q st Hsame.
    destruct (is_defined Source.guard st) eqn:Hdef.
    + rewrite !include_file_guarded by assumption. reflexivity.
    + rewrite !include_file_fresh by assumption.
      rewrite include_sites_file. unfold first_missing. simpl.
      pose proof (Hsame SocketAPI) as H1.
      pose proof (Hsame InternetAddress) as H2.
      pose proof (Hsame AddressConversion) as H3.
      pose proof (Hsame PosixIO) as H4.
      pose proof (Hsame NameResolution) as H5.
      pose proof (Hsame InterfaceEnumeration) as H6.
      cbn [header_of] in H1, H2, H3, H4, H5, H6.
      rewrite H1, H2, H3, H4, H5, H6. reflexivity.
Qed.

(** In an empty unit, on a platform with every header, the inclusion
    succeeds and the six headers are there. *)
Lemma aggregator_six_headers_witness :
  exists st',
    include_file full_platform empty_unit = Ok st' /\
    headers st' = headers empty_unit ++ map header_of surfaces /\
    (forall s, pulled (header_of s) st' = true).
Proof.
  apply (proj1 (proj2 (proj2 (proj2 aggregator_six_headers)))
           full_platform empty_unit).
  - intros s. reflexivity.
  - vm_compute. reflexivity.
Defined.

(** ** C2: the number of include directives *)

(** C2, as stated, fails: the file does not have nine include directives. *)
Lemma nine_includes_refuted : count_includes SystemHeaders_h <> 9.
Proof. vm_compute. discriminate. Qed.

(** C2, amended.  The file has exactly six include directives, and an
    inclusion that goes through the guard performs exactly these six: the
    unit gains six headers, no more and no fewer. *)
Theorem aggregator_six_includes :
  count_includes SystemHeaders_h = 6 /\
  length (include_sites 1 SystemHeaders_h) = 6 /\
  (forall P st st',
     is_defined Source.guard st = false -> include_file P st = Ok st' ->
     length (headers st') = length (headers st) + 6).
Proof.
  split; [vm_compute; reflexivity|].
  split; [vm_compute; reflexivity|].
  intros P st st' Hdef Hrun.
  apply include_file_Ok in Hrun as [[Hdef' _]|(_ & _ & ->)].
  - congruence.
  - unfold aggregated. simpl. rewrite length_app. reflexivity.
Qed.

(** ** C3: a second inclusion *)

Lemma include_times_1 P st : include_times P 1 st = include_file P st.
Proof. simpl. destruct (include_file P st); reflexivity. Qed.

(** C3.  Two inclusions of the aggregator in one translation unit give what
    one inclusion gives, whatever the unit and the platform.  After a first
    inclusion that succeeded the guard makes the second one leave the unit
    as it is.  No pair of inclusions ends in a macro redefinition error, and
    from a unit with a free guard the six headers are in the unit once, not
    twice. *)
Theorem include_twice_is_once : forall P st,
  include_times P 2 st = include_times P 1 st /\
  (forall st', include_file P st = Ok st' -> include_file P st' = Ok st') /\
  (forall m ln, include_times P 2 st <> Err (MacroRedefined m ln)) /\
  (forall st2,
     is_defined Source.guard st = false -> include_times P 2 st = Ok st2 ->
     headers st2 = headers st ++ map header_of surfaces /\
     forall s, pulled (header_of s) st2 = true).
Proof.
  intros P st.
  assert (Htwice : include_times P 2 st = include_file P st).
  { change (include_times P 2 st)
      with (bind (include_file P st) (include_times P 1)).
    destruct (include_file P st) as [st'|e] eqn:Hrun; simpl; [|reflexivity].
    rewrite (include_file_again P st st' Hrun). reflexivity. }
  split; [|split; [|split]].
  - rewrite Htwice, include_times_1. reflexivity.
  - intros st'. apply include_file_again.
  - intros m ln. rewrite Htwice. intros Herr.
    apply include_file_Err in Herr as (_ & k & h & Hbad & _). discriminate.
  - intros st2 Hdef. rewrite Htwice. intros Hrun.
    apply include_file_Ok in Hrun as [[Hdef' _]|(_ & _ & ->)]; [congruence|].
    split; [reflexivity|]. intros s. apply pulled_aggregated.
Qed.

(** ** C4: how an inclusion can fail *)

Lemma include_site_in_text k h :
  (k, h) ∈ include_sites 1 SystemHeaders_h ->
  Source.text !! (k - 1) = Some ("#include <" +:+ h +:+ ">") /\
  exists s, h = header_of s.
Proof.
  rewrite include_sites_file. intros Hin.
  repeat (apply elem_of_cons in Hin as [Hin|Hin];
          [injection Hin as -> ->; split; [reflexivity|]|]).
  - by exists SocketAPI.
  - by exists InternetAddress.
  - by exists AddressConversion.
  - by exists PosixIO.
  - by exists NameResolution.
  - by exists InterfaceEnumeration.
  - by apply elem_of_nil in Hin.
Qed.

(** C4.  The file has no program text, so nothing of it runs.  When an
    inclusion fails, the error is a missing header, reported at the line of
    an include directive of the file (the text of that line is the include
    of that very header), the header is one of the six and the platform
    lacks it, and every include directive before that line found its
    header.  Conversely, from a unit with a free guard, a platform that
    lacks one of the six headers makes the inclusion fail in this way. *)
Theorem missing_header_only_failure :
  program_text SystemHeaders_h = [] /\
  (forall P st e,
     include_file P st = Err e ->
     exists k h before after,
       e = MissingHeader h k /\
       P h = false /\
       (exists s, h = header_of s) /\
       Source.text !! (k - 1) = Some ("#include <" +:+ h +:+ ">") /\
       include_sites 1 SystemHeaders_h = before ++ (k, h) :: after /\
       Forall (fun s => P (snd s) = true) before) /\
  (forall P st,
     is_defined Source.guard st = false -> posix_family P = false ->
     exists k h, include_file P st = Err (MissingHeader h k) /\ P h = false).
Proof.
  split; [vm_compute; reflexivity|]. split.
  - intros P st e Herr.
    apply include_file_Err in Herr as (_ & k & h & -> & Hmiss).
    destruct (first_missing_split P _ k h Hmiss)
      as (before & after & Hsites & Hh & Hbefore).
    assert (Hin : (k, h) ∈ include_sites 1 SystemHeaders_h).
    { rewrite Hsites. apply elem_of_app. right. apply elem_of_cons. by left. }
    destruct (include_site_in_text k h Hin) as [Htext Hs].
    exists k, h, before, after. repeat split; assumption.
  - intros P st Hdef HP. rewrite (include_file_fresh P st Hdef).
    destruct (first_missing P _) as [[k h]|] eqn:Hmiss.
    + exists k, h. split; [reflexivity|].
      by destruct (first_missing_split P _ k h Hmiss) as (_ & _ & _ & Hh & _).
    + apply first_missing_family in Hmiss. congruence.
Qed.

(** On a platform without netdb.h the inclusion stops at line 9. *)
Lemma missing_header_only_failure_witness :
  exists k h before after,
    MissingHeader "netdb.h" 9 = MissingHeader h k /\
    no_netdb h = false /\
    (exists s, h = header_of s) /\
    Source.text !! (k - 1) = Some ("#include <" +:+ h +:+ ">") /\
    include_sites 1 SystemHeaders_h = before ++ (k, h) :: after /\
    Forall (fun s => no_netdb (snd s) = true) before.
Proof.
  apply (proj1 (proj2 missing_header_only_failure) no_netdb empty_unit).
  vm_compute. reflexivity.
Defined.

(** ** C5: nothing but directives *)

(** C5.  Every line of the file is blank, a comment or a preprocessor
    directive, on the text as on the lexed lines; the file has no program
    text, hence no function, type, variable or algorithm of its own.  Its
    directives are the guard's ifndef, define and endif and the six
    includes; the one macro it defines has an empty replacement, so it
    cannot stand for a declaration either. *)
Theorem only_directives :
  length SystemHeaders_h = length Source.text /\
  Forall (fun raw =>
            is_blank raw = true \/
            String.prefix "//" (skip_space raw) = true \/
            String.prefix "#" (skip_space raw) = true) Source.text /\
  Forall (fun l => l = Blank \/ l = Comment \/ is_directive l = true)
         SystemHeaders_h /\
  program_text SystemHeaders_h = [] /\
  Forall (fun l => forall d, l = Directive d ->
            d = Ifndef Source.guard \/ d = Define Source.guard "" \/
            d = Endif \/ exists s, d = IncludeSys (header_of s))
         SystemHeaders_h /\
  defined_macros SystemHeaders_h = [(Source.guard, "")].
Proof.
  split; [vm_compute; reflexivity|].
  split.
  { unfold Source.text.
    repeat apply Forall_cons_2; try apply Forall_nil_2; vm_compute; auto. }
  split.
  { rewrite SystemHeaders_h_lines.
    repeat apply Forall_cons_2; try apply Forall_nil_2; simpl; auto. }
  split; [vm_compute; reflexivity|].
  split; [|vm_compute; reflexivity].
  rewrite SystemHeaders_h_lines.
  repeat apply Forall_cons_2; try apply Forall_nil_2;
    intros d Hd; try discriminate; injection Hd as <-; auto.
  - right; right; right. by exists SocketAPI.
  - right; right; right. by exists InternetAddress.
  - right; right; right. by exists AddressConversion.
  - right; right; right. by exists PosixIO.
  - right; right; right. by exists NameResolution.
  - right; right; right. by exists InterfaceEnumeration.
Qed.

(** ** C6: what an inclusion leaves alone *)

(** C6.  The file has no program text, and a successful inclusion hands no
    program text to the compiler: the program of the unit is the same
    before and after.  Every macro other than the guard keeps its state.
    The unit is either unchanged, or it has gained the guard and the six
    external headers and nothing else. *)
Theorem inclusion_touches_no_program P st st' :
  include_file P st = Ok st' ->
  program_text SystemHeaders_h = [] /\
  program st' = program st /\
  (forall m, m <> Source.guard -> macros st' !! m = macros st !! m) /\
  (st' = st \/
   (macros st' = <[Source.guard := ""]> (macros st) /\
    headers st' = headers st ++ map header_of surfaces)).
Proof.
  intros Hrun. split; [vm_compute; reflexivity|].
  apply include_file_Ok in Hrun as [[_ ->]|(_ & _ & ->)].
  - auto.
  - unfold aggregated. simpl. repeat split.
    + intros m Hm. by rewrite lookup_insert_ne.
    + right. auto.
Qed.

Lemma inclusion_touches_no_program_witness :
  program_text SystemHeaders_h = [] /\
  program (aggregated empty_unit) = program empty_unit /\
  (forall m, m <> Source.guard ->
     macros (aggregated empty_unit) !! m = macros empty_unit !! m) /\
  (aggregated empty_unit = empty_unit \/
   (macros (aggregated empty_unit) = <[Source.guard := ""]> (macros empty_unit) /\
    headers (aggregated empty_unit) =
      headers empty_unit ++ map header_of surfaces)).
Proof.
  apply (inclusion_touches_no_program full_platform empty_unit).
  vm_compute. reflexivity.
Defined.

(** ** C7: platforms that provide the six headers *)




(** ** C8: the guard macro *)

Lemma include_times_guarded P n : forall st,
  is_defined Source.guard st = true -> include_times P n st = Ok st.
Proof.
  induction n as [|n IH]; intros st Hdef; simpl.
  - reflexivity.
  - rewrite (include_file_guarded P st Hdef). simpl. by apply IH.
Qed.

Lemma is_defined_other m b st :
  m <> Source.guard ->
  is_defined Source.guard (define_macro m b st) = is_defined Source.guard st.
Proof.
  intros Hm. unfold is_defined, define_macro. simpl.
  by rewrite lookup_insert_ne.
Qed.

Lemma aggregated_define_macro m b st :
  m <> Source.guard ->
  aggregated (define_macro m b st) = define_macro m b (aggregated st).
Proof.
  intros Hm. unfold aggregated, define_macro. simpl. f_equal.
  by apply insert_insert_ne.
Qed.

(** C8.  The file has one define, of SystemHeaders_h with an empty
    replacement, no undef and no program text.  After a successful
    inclusion the guard is defined (to the empty text when the inclusion
    defined it) and stays so through any further inclusions, while every
    other macro is as before.  A macro of another name in the unit makes no
    difference to what the inclusion does. *)
Theorem guard_is_the_only_macro P st st' :
  include_file P st = Ok st' ->
  defined_macros SystemHeaders_h = [(Source.guard, "")] /\
  undefined_macros SystemHeaders_h = [] /\
  program_text SystemHeaders_h = [] /\
  is_defined Source.guard st' = true /\
  (is_defined Source.guard st = false ->
   macros st' !! Source.guard = Some "") /\
  (forall m, m <> Source.guard -> macros st' !! m = macros st !! m) /\
  (forall n stn,
     include_times P n st' = Ok stn -> is_defined Source.guard stn = true) /\
  (forall m b, m <> Source.guard ->
     include_file P (define_macro m b st) = Ok (define_macro m b st')).
Proof.
  intros Hrun.
  split; [vm_compute; reflexivity|].
  split; [vm_compute; reflexivity|].
  split; [vm_compute; reflexivity|].
  pose proof (include_file_defines P st st' Hrun) as Hdef'.
  split; [exact Hdef'|].
  apply include_file_Ok in Hrun as [[Hdef ->]|(Hdef & HP & ->)].
  - split; [congruence|]. split; [auto|]. split.
    + intros n stn Hn. rewrite (include_times_guarded P n st Hdef) in Hn.
      by injection Hn as <-.
    + intros m b Hm. apply include_file_guarded.
      by rewrite is_defined_other.
  - split; [intros _; unfold aggregated; simpl; by rewrite lookup_insert_eq|].
    split; [intros m Hm; unfold aggregated; simpl; by rewrite lookup_insert_ne|].
    split.
    + intros n stn Hn. rewrite (include_times_guarded P n _ Hdef') in Hn.
      by injection Hn as <-.
    + intros m b Hm. rewrite <- aggregated_define_macro by done.
      apply include_file_family; [done|]. by rewrite is_defined_other.
Qed.

Lemma guard_is_the_only_macro_witness :
  defined_macros SystemHeaders_h = [(Source.guard, "")] /\
  undefined_macros SystemHeaders_h = [] /\
  program_text SystemHeaders_h = [] /\
  is_defined Source.guard (aggregated empty_unit) = true /\
  (is_defined Source.guard empty_unit = false ->
   macros (aggregated empty_unit) !! Source.guard = Some "") /\
  (forall m, m <> Source.guard ->
     macros (aggregated empty_unit) !! m = macros empty_unit !! m) /\
  (forall n stn,
     include_times full_platform n (aggregated empty_unit) = Ok stn ->
     is_defined Source.guard stn = true) /\
  (forall m b, m <> Source.guard ->
     include_file full_platform (define_macro m b empty_unit) =
     Ok (define_macro m b (aggregated empty_unit))).
Proof.
  apply (guard_is_the_only_macro full_platform empty_unit).
  vm_compute. reflexivity.
Defined.

(** ** C9: the order of the includes *)

(** C9.  The include directives stand in the order sys/socket.h,
    netinet/in.h, arpa/inet.h, unistd.h, netdb.h, ifaddrs.h, on lines 5 to
    10, and an inclusion that goes through the guard pulls the headers in
    in that order: among the headers it adds, sys/socket.h comes before
    netinet/in.h. *)
Theorem includes_in_textual_order P st st' :
  is_defined Source.guard st = false -> include_file P st = Ok st' ->
  include_sites 1 SystemHeaders_h =
    [ (5, "sys/socket.h"); (6, "netinet/in.h"); (7, "arpa/inet.h")
    ; (8, "unistd.h"); (9, "netdb.h"); (10, "ifaddrs.h") ] /\
  headers st' =
    headers st ++
    [ "sys/socket.h"; "netinet/in.h"; "arpa/inet.h"; "unistd.h"; "netdb.h"
    ; "ifaddrs.h" ] /\
  (forall i j,
     headers st' !! (length (headers st) + i) = Some "sys/socket.h" ->
     headers st' !! (length (headers st) + j) = Some "netinet/in.h" ->
     i < j).
Proof.
  intros Hdef Hrun. split; [apply include_sites_file|].
  apply include_file_Ok in Hrun as [[Hdef' _]|(_ & _ & ->)]; [congruence|].
  split; [reflexivity|].
  intros i j. unfold aggregated. simpl.
  rewrite !lookup_app_r by lia.
  replace (length (headers st) + i - length (headers st)) with i by lia.
  replace (length (headers st) + j - length (headers st)) with j by lia.
  intros Hi Hj.
  destruct i as [|[|[|[|[|[|i]]]]]]; simpl in Hi; try discriminate.
  destruct j as [|[|[|[|[|[|j]]]]]]; simpl in Hj; try discriminate.
  lia.
Qed.

Lemma includes_in_textual_order_witness :
  include_sites 1 SystemHeaders_h =
    [ (5, "sys/socket.h"); (6, "netinet/in.h"); (7, "arpa/inet.h")
    ; (8, "unistd.h"); (9, "netdb.h"); (10, "ifaddrs.h") ] /\
  headers (aggregated empty_unit) =
    headers empty_unit ++
    [ "sys/socket.h"; "netinet/in.h"; "arpa/inet.h"; "unistd.h"; "netdb.h"
    ; "ifaddrs.h" ] /\
  (forall i j,
     headers (aggregated empty_unit) !! (length (headers empty_unit) + i)
       = Some "sys/socket.h" ->
     headers (aggregated empty_unit) !! (length (headers empty_unit) + j)
       = Some "netinet/in.h" ->
     i < j).
Proof.
  apply (includes_in_textual_order full_platform empty_unit).
  - vm_compute. reflexivity.
  - vm_compute. reflexivity.
Defined.

(** ** C10: any number of inclusions *)

(** C10.  For every n of at least one, n inclusions in a row give what one
    inclusion gives, on every platform and from every unit.  The reasons
    are in the file: its one conditional is closed by its last line, and it
    has no undef, so the guard, once defined, stays defined. *)
Theorem include_many_is_once P st n :
  1 <= n ->
  include_times P n st = include_file P st /\
  balanced SystemHeaders_h = true /\
  undefined_macros SystemHeaders_h = [].
Proof.
  intros Hn. split; [|split; vm_compute; reflexivity].
  destruct n as [|n]; [lia|]. clear Hn.
  induction n as [|n IH].
  - apply include_times_1.
  - change (include_times P (S (S n)) st)
      with (bind (include_file P st) (include_times P (S n))).
    destruct (include_file P st) as [st1|e] eqn:Hrun; simpl; [|reflexivity].
    pose proof (include_file_defines P st st1 Hrun) as Hdef.
    rewrite (include_file_guarded P st1 Hdef). simpl.
    apply include_times_guarded, Hdef.
Qed.

Lemma include_many_is_once_witness :
  include_times full_platform 3 empty_unit =
    include_file full_platform empty_unit /\
  balanced SystemHeaders_h = true /\
  undefined_macros SystemHeaders_h = [].
Proof.
  apply (include_many_is_once full_platform empty_unit 3). lia.
Defined.

(** ** Further properties of the file *)

(** X1.  A guard that is already taken silences the file.  When
    SystemHeaders_h is defined in the unit, whatever its replacement text
    and whoever defined it, an inclusion succeeds on every platform, also on
    one that has none of the six headers, and returns the unit as it was:
    no header is pulled in and no missing header is reported, however often
    the file is included. *)
Theorem taken_guard_silences_inclusion P st :
  is_defined Source.guard st = true ->
  include_file P st = Ok st /\
  (forall n, include_times P n st = Ok st) /\
  (forall h k, include_file P st <> Err (MissingHeader h k)).
Proof.
  intros Hdef.
  pose proof (include_file_guarded P st Hdef) as Hrun.
  split; [exact Hrun|]. split.
  - induction n as [|n IH]; simpl; [reflexivity|].
    rewrite Hrun. exact IH.
  - intros h k. rewrite Hrun. discriminate.
Qed.

Lemma taken_guard_silences_inclusion_witness :
  include_file bare_platform (define_macro Source.guard "1" empty_unit) =
    Ok (define_macro Source.guard "1" empty_unit) /\
  (forall n,
     include_times bare_platform n (define_macro Source.guard "1" empty_unit) =
     Ok (define_macro Source.guard "1" empty_unit)) /\
  (forall h k,
     include_file bare_platform (define_macro Source.guard "1" empty_unit) <>
     Err (MissingHeader h k)).
Proof.
  apply (taken_guard_silences_inclusion bare_platform
           (define_macro Source.guard "1" empty_unit)).
  vm_compute. reflexivity.
Defined.

(** X2.  When an inclusion succeeds.  An inclusion of the file succeeds
    exactly when the guard is already defined in the unit or the platform
    provides all six headers; it fails exactly when the guard is free and
    the platform lacks one of them. *)
Theorem inclusion_succeeds_iff P st :
  ((exists st', include_file P st = Ok st') <->
   (is_defined Source.guard st = true \/ posix_family P = true)) /\
  ((exists e, include_file P st = Err e) <->
   (is_defined Source.guard st = false /\ posix_family P = false)).
Proof.
  destruct (is_defined Source.guard st) eqn:Hdef.
  - rewrite (include_file_guarded P st Hdef). split; split.
    + auto.
    + eauto.
    + intros [e He]. discriminate.
    + intros [Hf _]. discriminate.
  - rewrite (include_file_fresh P st Hdef).
    destruct (first_missing P _) as [[k h]|] eqn:Hmiss.
    + assert (HP : posix_family P = false).
      { destruct (posix_family P) eqn:HP; [|reflexivity].
        apply first_missing_family in HP. congruence. }
      split; split.
      * intros [st' Hst']. discriminate.
      * intros [Hf|Hf]; congruence.
      * auto.
      * eauto.
    + apply first_missing_family in Hmiss. split; split.
      * auto.
      * eauto.
      * intros [e He]. discriminate.
      * intros [_ Hf]. congruence.
Qed.
